(** * A shallow embedding of the Stud.IP rclone backend
    (backend/studip/studip.go): the in-memory course file tree, the
    path resolver [GetNodeAtPath], the listing [List], the concurrent
    tree builder [FillFolderNode], the root folder lookup and the
    read-only write operations.

    Conventions of the model:
    - Go strings are [String.string]; Go's [<] on strings is the
      byte-wise [String.compare].
    - A [*Node] is [option Node]: [None] is the nil pointer.  Children
      are never nil pointers in a built tree, so [Children] is a
      [list Node].
    - [time.Time] is a [Z] (seconds).
    - Remote calls either return a decoded response or an error; the
      remote store is a record of such functions.
    - The context is modelled by [ctxErr : option Error], the value of
      [ctx.Err()] (constant over one call). *)

From Stdlib Require Import String Ascii List Bool ZArith Lia Sorting.Permutation
  Sorting.Sorted.
Import ListNotations.
Open Scope string_scope.

(** ** Errors *)

Inductive Error : Type :=
| ErrCtx                   (* ctx.Err() *)
| ErrNotAFolder            (* errors.New("node isn't a folder") *)
| ErrRemote (msg : string) (* transport / HTTP / JSON decode failure *)
| ErrNoRootFolder          (* errors.New("response doesn't contain a RootFolder") *)
| ErrorDirNotFound         (* fs.ErrorDirNotFound *)
| ErrorPermissionDenied    (* fs.ErrorPermissionDenied *)
| ErrorNotImplemented      (* fs.ErrorNotImplemented *)
| ErrCourseIDRequired      (* errors.New("course_id is required") *)
| ErrCourseIDMismatch      (* "received courseID doesn't match ..." *)
| ErrFuel.                 (* model only: recursion depth bound exhausted *)

(** Results of Go code that may dereference a nil pointer. *)
Inductive Go (A : Type) : Type :=
| Returns (a : A)
| NilDeref.
Arguments Returns {A} a.
Arguments NilDeref {A}.

(** ** The tree node (type Node struct) *)

Set Warnings "-register-all".

Inductive Node : Type :=
| mkNode (Children : list Node) (Name : string) (Id : string) (IsDir : bool)
    (ChDate : Z) (Size : Z) (ContentType : string).

Definition Children (n : Node) : list Node :=
  let 'mkNode c _ _ _ _ _ _ := n in c.
Definition Name (n : Node) : string :=
  let 'mkNode _ x _ _ _ _ _ := n in x.
Definition Id (n : Node) : string :=
  let 'mkNode _ _ x _ _ _ _ := n in x.
Definition IsDir (n : Node) : bool :=
  let 'mkNode _ _ _ x _ _ _ := n in x.
Definition ChDate (n : Node) : Z :=
  let 'mkNode _ _ _ _ x _ _ := n in x.
Definition Size (n : Node) : Z :=
  let 'mkNode _ _ _ _ _ x _ := n in x.
Definition ContentType (n : Node) : string :=
  let 'mkNode _ _ _ _ _ _ x := n in x.

Definition setChildren (n : Node) (c : list Node) : Node :=
  let 'mkNode _ a b d e f g := n in mkNode c a b d e f g.

(** ** GetNodeAtPath *)

(** [for _, children := range node.Children { if children.Name == s ... }]:
    the first child with that exact name. *)
Definition findChild (cs : list Node) (s : string) : option Node :=
  find (fun c => String.eqb (Name c) s) cs.

(** [node.Children] on a nil [node] is a nil dereference. *)
Fixpoint GetNodeAtPath (node : option Node) (pathSplit : list string)
  : Go (option Node) :=
  match pathSplit with
  | [] => Returns node
  | s :: rest =>
      if String.eqb s "." then Returns node
      else if String.eqb s "" then Returns node
      else match node with
           | None => NilDeref
           | Some n =>
               match findChild (Children n) s with
               | Some c => GetNodeAtPath (Some c) rest
               | None => Returns None
               end
           end
  end.

(** ** Go string and path helpers (Unix: os.PathSeparator is '/') *)

Definition slash : ascii := "/"%char.

(** strings.Split(s, sep) for a one-byte separator: the pieces between
    separators, so [Split "" "/" = [""]] and [Split "a/b" "/" = ["a"; "b"]]. *)
Fixpoint splitOn (sep : ascii) (s : string) : list string :=
  match s with
  | EmptyString => [EmptyString]
  | String c rest =>
      if Ascii.eqb c sep then EmptyString :: splitOn sep rest
      else match splitOn sep rest with
           | w :: ws => String c w :: ws
           | [] => [String c EmptyString]
           end
  end.

Definition strings_Split (s : string) (sep : ascii) : list string := splitOn sep s.

Fixpoint joinWith (sep : string) (ws : list string) : string :=
  match ws with
  | [] => ""
  | [w] => w
  | w :: rest => w ++ sep ++ joinWith sep rest
  end.

(** path.Clean: Go processes the bytes with a lazy buffer; the same
    lexical rules per element: empty and "." elements are dropped, ".."
    removes the previous non-".." element, is dropped at a rooted start and
    kept otherwise; the result is "." when empty ("/" when rooted). *)
Fixpoint cleanElems (rooted : bool) (out : list string) (elems : list string)
  : list string :=
  match elems with
  | [] => out
  | e :: rest =>
      if String.eqb e "" || String.eqb e "." then cleanElems rooted out rest
      else if String.eqb e ".." then
        match out with
        | o :: out' =>
            if String.eqb o ".." then cleanElems rooted (e :: out) rest
            else cleanElems rooted out' rest
        | [] => if rooted then cleanElems rooted [] rest
                else cleanElems rooted [e] rest
        end
      else cleanElems rooted (e :: out) rest
  end.

Definition path_Clean (p : string) : string :=
  match p with
  | EmptyString => "."
  | String c _ =>
      let rooted := Ascii.eqb c slash in
      let body := joinWith "/" (rev (cleanElems rooted [] (splitOn slash p))) in
      if rooted then "/" ++ body
      else if String.eqb body "" then "." else body
  end.

(** filepath.Dir on Unix: everything up to the last separator, cleaned. *)
Definition dropAfterLastSlash (p : string) : string :=
  let fix go (l : list ascii) : list ascii :=
    match l with
    | [] => []
    | c :: rest => if Ascii.eqb c slash then l else go rest
    end in
  string_of_list_ascii (rev (go (rev (list_ascii_of_string p)))).

Definition filepath_Dir (p : string) : string := path_Clean (dropAfterLastSlash p).

(** filepath.Join: the non-empty elements joined by '/', then cleaned;
    "" when all are empty. *)
Definition filepath_Join (elems : list string) : string :=
  match filter (fun e => negb (String.eqb e "")) elems with
  | [] => ""
  | ne => path_Clean (joinWith "/" ne)
  end.

(** splitPath from the source. *)
Definition splitPath (p : string) : list string :=
  let p := path_Clean p in
  if String.eqb p "/" then [] else strings_Split p slash.

(** ** Listing (Fs.List) *)

(** The two fs.DirEntry implementations List produces. *)
Record Directory := mkDirectory {
  dir_id : string; dir_name : string; dir_items : Z; dir_modTime : Z;
  dir_remote : string }.

Record Object := mkObject {
  obj_remote : string; obj_id : string; obj_size : Z; obj_isDir : bool;
  obj_contentType : string; obj_modTime : Z }.

Inductive DirEntry : Type :=
| EDirectory (d : Directory)
| EObject (o : Object).

Definition Remote (e : DirEntry) : string :=
  match e with
  | EDirectory d => dir_remote d
  | EObject o => obj_remote o
  end.

(** fs.DirEntryType: "directory" or "object". *)
Definition DirEntryType (e : DirEntry) : string :=
  match e with
  | EDirectory _ => "directory"
  | EObject _ => "object"
  end.

(** rclone's fs.CompareDirEntries, used by DirEntries.Less: Go's byte-wise
    string order on Remote(), ties broken by the entry type. *)
Definition CompareDirEntries (a b : DirEntry) : comparison :=
  match String.compare (Remote a) (Remote b) with
  | Eq => String.compare (DirEntryType a) (DirEntryType b)
  | c => c
  end.

Definition Less (a b : DirEntry) : bool :=
  match CompareDirEntries a b with Lt => true | _ => false end.

(** sort.Slice guarantees only that its result is a permutation ordered
    by [Less]; an insertion sort by [Less] is one such sort. *)
Fixpoint insertEntry (x : DirEntry) (l : list DirEntry) : list DirEntry :=
  match l with
  | [] => [x]
  | y :: t => if Less x y then x :: l else y :: insertEntry x t
  end.

Fixpoint sortSlice (l : list DirEntry) : list DirEntry :=
  match l with
  | [] => []
  | x :: t => insertEntry x (sortSlice t)
  end.

(** The loop body of List: one entry per child. *)
Definition projectEntry (dir : string) (entry : Node) : DirEntry :=
  if IsDir entry then
    EDirectory (mkDirectory (Id entry) (Name entry)
                  (Z.of_nat (length (Children entry))) (ChDate entry)
                  (filepath_Join [dir; Name entry]))
  else
    EObject (mkObject (filepath_Join [dir; Name entry]) (Id entry) (Size entry)
               (IsDir entry) (ContentType entry) (ChDate entry)).

(** [if !node.IsDir || node == nil]: the left operand is evaluated first,
    so a nil [node] is dereferenced before it is compared with nil. *)
Definition List (ctxErr : option Error) (rootNode : option Node) (dir : string)
  : Go (list DirEntry + Error) :=
  match ctxErr with
  | Some e => Returns (inr e)
  | None =>
      let pathSplit := strings_Split dir slash in
      match GetNodeAtPath rootNode pathSplit with
      | NilDeref => NilDeref
      | Returns None => NilDeref
      | Returns (Some node) =>
          if negb (IsDir node) then Returns (inr ErrorDirNotFound)
          else Returns (inl (sortSlice (map (projectEntry dir) (Children node))))
      end
  end.

(** ** The remote store and the fetchers *)

(** One entry of StudIPFolders.Data (the fields the code reads). *)
Record FolderData := mkFolderData {
  fd_ID : string; fd_FolderType : string; fd_Name : string; fd_Chdate : Z }.

(** One entry of StudIPFiles.Data (the fields the code reads). *)
Record FileData := mkFileData {
  fi_ID : string; fi_Name : string; fi_Chdate : Z; fi_Filesize : Z;
  fi_MimeType : string; fi_IsReadable : bool; fi_IsDownloadable : bool }.

(** The answers of the REST API: a decoded response or a transport/decode
    error, per request path. *)
Record RemoteStore := mkRemoteStore {
  courseOf : string -> string + Error;                 (* courses/{id}: data.id *)
  courseFoldersOf : string -> list FolderData + Error; (* courses/{id}/folders *)
  foldersOf : string -> list FolderData + Error;       (* folders/{id}/folders *)
  filesOf : string -> list FileData + Error }.         (* folders/{id}/file-refs *)

Definition RetrieveFoldersOfFolder (ctxErr : option Error) (r : RemoteStore)
  (folderID : string) : list FolderData + Error :=
  match ctxErr with Some e => inr e | None => foldersOf r folderID end.

Definition RetrieveFilesOfFolder (ctxErr : option Error) (r : RemoteStore)
  (folderID : string) : list FileData + Error :=
  match ctxErr with Some e => inr e | None => filesOf r folderID end.

(** slices.IndexFunc, with [None] for the index -1. *)
Fixpoint IndexFunc {A : Type} (p : A -> bool) (l : list A) : option nat :=
  match l with
  | [] => None
  | x :: t => if p x then Some 0 else option_map S (IndexFunc p t)
  end.

Definition isRootFolder (e : FolderData) : bool :=
  String.eqb (fd_FolderType e) "RootFolder".

Definition RetrieveRootFolderID (ctxErr : option Error) (r : RemoteStore)
  (courseID : string) : string + Error :=
  match ctxErr with
  | Some e => inr e
  | None =>
      match courseFoldersOf r courseID with
      | inr e => inr e
      | inl data =>
          match IndexFunc isRootFolder data with
          | None => inr ErrNoRootFolder
          | Some index =>
              match nth_error data index with
              | Some d => inl (fd_ID d)
              | None => inr ErrNoRootFolder (* IndexFunc returns an index of data *)
              end
          end
      end
  end.

(** ** The tree builder (FillFolderNode) *)

(** The children nodes created from fetched folders and files. *)
Definition newFolderNode (folder : FolderData) : Node :=
  mkNode [] (fd_Name folder) (fd_ID folder) true (fd_Chdate folder) (-1) "".

Definition newFileNode (file : FileData) : Node :=
  mkNode [] (fi_Name file) (fi_ID file) false (fi_Chdate file) (fi_Filesize file)
    (fi_MimeType file).

(** [if !file.Attributes.IsReadable || !file.Attributes.IsDownloadable { continue }] *)
Definition keepFile (file : FileData) : bool :=
  fi_IsReadable file && fi_IsDownloadable file.

(** The receive loop on the unbuffered [errChan]:
    [for range length { err := <-errChan; if err != nil { return err } }].
    [msgs] are the goroutines' sends in completion order, one per
    goroutine.  The result is the number of messages received and the
    error returned, if any. *)
Fixpoint drainErrChan (msgs : list (option Error)) : nat * option Error :=
  match msgs with
  | [] => (0, None)
  | Some e :: _ => (1, Some e)
  | None :: rest => let '(k, e) := drainErrChan rest in (S k, e)
  end.

(** Senders left blocked on the unbuffered channel after the loop. *)
Definition blockedSenders (msgs : list (option Error)) : nat :=
  length msgs - fst (drainErrChan msgs).

Definition errOf (res : Node + Error) : option Error :=
  match res with inl _ => None | inr e => Some e end.

(** A scheduler: for a folder id and the indices of its spawned goroutines
    (in spawn order), the order in which their sends are received.  A real
    execution gives a permutation. *)
Definition Sched := string -> list nat -> list nat.

Definition validSched (sched : Sched) : Prop :=
  forall id l, Permutation (sched id l) l.

(** The node a goroutine leaves behind: the filled node on success. *)
Definition filledChild (c : Node) (res : Node + Error) : Node :=
  match res with inl n => n | inr _ => c end.

(** FillFolderNode.  The goroutines write disjoint subtrees, so each
    spawned call is computed on its own; the only interleaving visible to
    the parent is the order of the channel receives, given by [sched].
    [fuel] bounds the recursion depth (the Go code recurses as deep as the
    remote tree). *)
Fixpoint FillFolderNode (fuel : nat) (ctxErr : option Error) (r : RemoteStore)
  (sched : Sched) (folderNode : Node) {struct fuel} : Node + Error :=
  match fuel with
  | O => inr ErrFuel
  | S fuel' =>
  match ctxErr with
  | Some e => inr e
  | None =>
  if negb (IsDir folderNode) then inr ErrNotAFolder else
  match RetrieveFoldersOfFolder ctxErr r (Id folderNode) with
  | inr e => inr e
  | inl folders =>
      let children := (Children folderNode ++ map newFolderNode folders)%list in
      let results := map (FillFolderNode fuel' ctxErr r sched) children in
      let msgs := map (fun i => errOf (nth i results (inr ErrFuel)))
                      (sched (Id folderNode) (seq 0 (length children))) in
      match snd (drainErrChan msgs) with
      | Some e => inr e
      | None =>
          match RetrieveFilesOfFolder ctxErr r (Id folderNode) with
          | inr e => inr e
          | inl files =>
              inl (setChildren folderNode
                     (map (fun '(c, res) => filledChild c res) (combine children results)
                      ++ map newFileNode (filter keepFile files))%list)
          end
      end
  end
  end
  end.

Definition GetCourseFileTree (fuel : nat) (ctxErr : option Error) (r : RemoteStore)
  (sched : Sched) (rootFolderID : string) : option Node + Error :=
  match ctxErr with
  | Some e => inr e
  | None =>
      let rootNode := mkNode [] "" rootFolderID true 0 0 "" in
      match FillFolderNode fuel ctxErr r sched rootNode with
      | inr e => inr e
      | inl n => inl (Some n)
      end
  end.

(** ** NewFs *)

Record Fs := mkFs { fs_root : string; fs_rootNode : option Node }.

(** TestConnection: the course record must carry the configured id. *)
Definition TestConnection (ctxErr : option Error) (r : RemoteStore)
  (courseID : string) : option Error :=
  match ctxErr with
  | Some e => Some e
  | None =>
      match courseOf r courseID with
      | inr e => Some e
      | inl id => if String.eqb id courseID then None else Some ErrCourseIDMismatch
      end
  end.

(** NewFs after the options have been parsed (configstruct.Set and
    url.Parse are not modelled). *)
Definition NewFs (fuel : nat) (ctxErr : option Error) (r : RemoteStore)
  (sched : Sched) (courseID : string) (root : string) : Go (Fs + Error) :=
  match ctxErr with
  | Some e => Returns (inr e)
  | None =>
  if String.eqb courseID "" then Returns (inr ErrCourseIDRequired) else
  match TestConnection ctxErr r courseID with
  | Some e => Returns (inr e)
  | None =>
  match RetrieveRootFolderID ctxErr r courseID with
  | inr e => Returns (inr e)
  | inl rootID =>
  match GetCourseFileTree fuel ctxErr r sched rootID with
  | inr e => Returns (inr e)
  | inl rootNode =>
      if negb (String.eqb root "") then
        let pathSplit := splitPath (filepath_Dir root) in
        match GetNodeAtPath rootNode pathSplit with
        | NilDeref => NilDeref
        | Returns n => Returns (inl (mkFs root n))
        end
      else Returns (inl (mkFs root rootNode))
  end
  end
  end
  end.

(** ** Write-class operations *)

(** A request sent to the REST API. *)
Record Request := mkRequest { req_method : string; req_path : string }.

Inductive WriteCall : Type :=
| Put (src : string)
| Mkdir (dir : string)
| Rmdir (dir : string)
| Purge (dir : string)
| Copy (src : Object) (remote : string)
| Move (src : Object) (remote : string)
| DirMove (srcRemote dstRemote : string)
| SetModTime (o : Object) (t : Z)
| Update (o : Object) (src : string)
| Remove (o : Object).

(** Every write method returns a constant error; none calls the client,
    so the request log is returned unchanged. *)
Definition callWrite (c : WriteCall) (log : list Request) : Error * list Request :=
  match c with
  | Put _ | Mkdir _ | Rmdir _ | Purge _ | Copy _ _ | Move _ _ | DirMove _ _ =>
      (ErrorPermissionDenied, log)
  | SetModTime _ _ | Update _ _ | Remove _ => (ErrorNotImplemented, log)
  end.

(** The methods declared on Fs (as opposed to those on Object). *)
Definition isFsMethod (c : WriteCall) : bool :=
  match c with
  | Put _ | Mkdir _ | Rmdir _ | Purge _ | Copy _ _ | Move _ _ | DirMove _ _ => true
  | _ => false
  end.

(** ** Object.Open *)




(** ** Vocabulary for properties of the tree and of paths *)

(** [m] is [n] or lies below it. *)
Inductive subnode : Node -> Node -> Prop :=
| subnode_refl n : subnode n n
| subnode_child m c n : In c (Children n) -> subnode m c -> subnode m n.

(** A path segment GetNodeAtPath looks up among the children (it stops at
    "." and ""). *)
Definition isStep (w : string) : bool :=
  negb (String.eqb w ".") && negb (String.eqb w "").

Definition noSlash (w : string) : bool :=
  forallb (fun c => negb (Ascii.eqb c slash)) (list_ascii_of_string w).

(** A segment path.Clean can leave: no separator, neither "" nor ".". *)
Definition cleanSeg (w : string) : bool := isStep w && noSlash w.

Definition startsWithSlash (p : string) : bool :=
  match p with String c _ => Ascii.eqb c slash | EmptyString => false end.


(** ** The order the spec describes for listings *)

(** Spec-side definition, compared with [CompareDirEntries] above:
    "case-insensitive, locale-agnostic ordinal comparison" of names,
    i.e. byte-wise order after folding ASCII upper case to lower case. *)
Definition lowerAscii (c : ascii) : ascii :=
  let n := nat_of_ascii c in
  if (65 <=? n)%nat && (n <=? 90)%nat then ascii_of_nat (n + 32) else c.

Definition foldCase (s : string) : string :=
  string_of_list_ascii (map lowerAscii (list_ascii_of_string s)).

Definition specNameLe (a b : DirEntry) : Prop :=
  String.compare (foldCase (Remote a)) (foldCase (Remote b)) <> Gt.

(** * Sample inputs *)

Definition fileNode (name : string) : Node := mkNode [] name name false 0 1 "text/plain".
Definition dirNode (name : string) (cs : list Node) : Node := mkNode cs name name true 0 (-1) "".

(** A course: root/ {docs/ {a.pdf}, notes.txt, secret.txt (not downloadable)}. *)
Definition exFolders (id : string) : list FolderData + Error :=
  if String.eqb id "root1" then inl [mkFolderData "docs" "StandardFolder" "docs" 7]
  else inl [].

Definition exFiles (id : string) : list FileData + Error :=
  if String.eqb id "root1" then
    inl [mkFileData "f1" "notes.txt" 3 5 "text/plain" true true;
         mkFileData "f2" "secret.txt" 4 9 "text/plain" true false]
  else if String.eqb id "docs" then
    inl [mkFileData "f3" "a.pdf" 5 10 "application/pdf" true true]
  else inl [].

Definition exRemote : RemoteStore :=
  mkRemoteStore (fun id => inl id)
    (fun _ => inl [mkFolderData "other" "StandardFolder" "x" 0;
                   mkFolderData "root1" "RootFolder" "" 0])
    exFolders exFiles.

(** A folder "root1" with subfolders A and B; fetching the subfolders of
    A fails. *)
Definition e500 : Error := ErrRemote "500 Internal Server Error".
Definition folderA : FolderData := mkFolderData "A" "StandardFolder" "A" 1.
Definition folderB : FolderData := mkFolderData "B" "StandardFolder" "B" 2.

Definition failRemote : RemoteStore :=
  mkRemoteStore (fun id => inl id)
    (fun _ => inl [mkFolderData "root1" "RootFolder" "" 0])
    (fun id => if String.eqb id "root1" then inl [folderA; folderB]
               else if String.eqb id "A" then inr e500 else inl [])
    (fun _ => inl []).

Definition freshRoot (id : string) : Node := mkNode [] "" id true 0 0 "".

Definition fifo : Sched := fun _ l => l.
Definition lifo : Sched := fun _ l => rev l.

(** The tree the example course builds to. *)
Definition exTree : Node :=
  match FillFolderNode 5 None exRemote lifo (freshRoot "root1") with
  | inl n => n
  | inr _ => freshRoot "root1"
  end.


(** * Unit tests of the helpers *)

Example splitOn_ex1 : strings_Split "" slash = [""].
Proof. reflexivity. Qed.
Example splitOn_ex2 : strings_Split "a/b" slash = ["a"; "b"].
Proof. reflexivity. Qed.
Example clean_ex1 : path_Clean "a//b/./../c/" = "a/c".
Proof. reflexivity. Qed.
Example clean_ex2 : path_Clean "/../a" = "/a".
Proof. reflexivity. Qed.
Example clean_ex3 : path_Clean "../../a" = "../../a".
Proof. reflexivity. Qed.
Example dir_ex1 : filepath_Dir "a/b" = "a".
Proof. reflexivity. Qed.
Example dir_ex2 : filepath_Dir "x" = ".".
Proof. reflexivity. Qed.
Example dir_ex3 : filepath_Dir "/x" = "/".
Proof. reflexivity. Qed.
Example join_ex : filepath_Join [""; "docs"] = "docs".
Proof. reflexivity. Qed.
Example splitPath_ex : splitPath "." = ["."].
Proof. reflexivity. Qed.


(** * Properties *)

Lemma fifo_valid : validSched fifo.
Proof. intros id l. apply Permutation_refl. Qed.

Lemma lifo_valid : validSched lifo.
Proof. intros id l. apply Permutation_sym, Permutation_rev. Qed.

(** ** Path resolution *)

(** C6: the empty path, ["."] and [""] resolve to the node passed in,
    whatever that node is (also nil). *)
Theorem GetNodeAtPath_root_identity : forall node : option Node,
  GetNodeAtPath node [] = Returns node /\
  GetNodeAtPath node ["."] = Returns node /\
  GetNodeAtPath node [""] = Returns node.
Proof. intros node; repeat split. Qed.

(** C9: a path whose first segment is "." or "" resolves to the node
    passed in; the remaining segments are ignored. *)
Theorem GetNodeAtPath_dot_first_ignores_rest :
  forall (node : option Node) (s : string) (rest : list string),
    s = "." \/ s = "" -> GetNodeAtPath node (s :: rest) = Returns node.
Proof.
  intros node s rest [-> | ->]; reflexivity.
Qed.

Lemma GetNodeAtPath_dot_first_ignores_rest_witness :
  let docs := dirNode "docs" [] in
  let n := dirNode "root" [docs] in
  ("." = "." \/ "." = "") /\
  GetNodeAtPath (Some n) ["."; "docs"] = Returns (Some n) /\
  GetNodeAtPath (Some n) ["docs"] = Returns (Some docs).
Proof.
  cbv zeta. split; [left; reflexivity | split].
  - apply GetNodeAtPath_dot_first_ignores_rest. left; reflexivity.
  - reflexivity.
Defined.

(** ** Write-class operations *)

(** C3 (counterexample): deleting an object through Object.Remove
    returns ErrorNotImplemented, not ErrorPermissionDenied. *)
Lemma write_not_all_permission_denied :
  let o := mkObject "notes.txt" "f1" 5 false "text/plain" 3 in
  callWrite (Remove o) [] = (ErrorNotImplemented, []) /\
  ErrorNotImplemented <> ErrorPermissionDenied.
Proof. split; [reflexivity | discriminate]. Qed.

(** C3 (amended): the write methods of Fs (Put, Mkdir, Rmdir, Purge, Copy,
    Move, DirMove) return ErrorPermissionDenied, the write methods of
    Object (SetModTime, Update, Remove) return ErrorNotImplemented, and
    none of them sends a request. *)
Theorem write_calls_fail_without_request : forall (c : WriteCall) (log : list Request),
  callWrite c log =
    ((if isFsMethod c then ErrorPermissionDenied else ErrorNotImplemented), log).
Proof. intros [] log; reflexivity. Qed.

(** ** Listing *)

(** The order sort.Slice establishes: no entry is [Less] than the one
    before it. *)
Definition entryLe (a b : DirEntry) : Prop := CompareDirEntries a b <> Gt.

Lemma CompareDirEntries_antisym : forall a b,
  CompareDirEntries a b = CompOpp (CompareDirEntries b a).
Proof.
  intros a b. unfold CompareDirEntries.
  rewrite (String.compare_antisym (Remote a) (Remote b)).
  rewrite (String.compare_antisym (DirEntryType a) (DirEntryType b)).
  destruct (String.compare (Remote b) (Remote a)); reflexivity.
Qed.

Lemma Less_true_le : forall x y, Less x y = true -> entryLe x y.
Proof.
  unfold Less, entryLe; intros x y H.
  destruct (CompareDirEntries x y); congruence.
Qed.

Lemma Less_false_le : forall x y, Less x y = false -> entryLe y x.
Proof.
  unfold Less, entryLe; intros x y H.
  rewrite CompareDirEntries_antisym.
  destruct (CompareDirEntries x y); simpl; congruence.
Qed.

Lemma insertEntry_perm : forall x l, Permutation (insertEntry x l) (x :: l).
Proof.
  intros x l; induction l as [|y t IH]; simpl; [reflexivity|].
  destruct (Less x y); [reflexivity|].
  rewrite IH. apply perm_swap.
Qed.

Lemma insertEntry_hd : forall y x t,
  entryLe y x -> HdRel entryLe y t -> HdRel entryLe y (insertEntry x t).
Proof.
  intros y x t Hyx Ht. destruct t as [|z t']; simpl.
  - constructor; assumption.
  - destruct (Less x z); constructor; [assumption|].
    inversion Ht; assumption.
Qed.

Lemma insertEntry_sorted : forall x l,
  Sorted entryLe l -> Sorted entryLe (insertEntry x l).
Proof.
  intros x l; induction l as [|y t IH]; intros Hs; simpl.
  - repeat constructor.
  - inversion Hs as [|? ? Ht Hhd]; subst.
    destruct (Less x y) eqn:E.
    + constructor; [assumption|]. constructor. apply Less_true_le; assumption.
    + constructor; [apply IH; assumption|].
      apply insertEntry_hd; [apply Less_false_le; assumption | assumption].
Qed.

Lemma sortSlice_perm : forall l, Permutation (sortSlice l) l.
Proof.
  induction l as [|x t IH]; simpl; [reflexivity|].
  rewrite insertEntry_perm. constructor. assumption.
Qed.

Lemma sortSlice_sorted : forall l, Sorted entryLe (sortSlice l).
Proof.
  induction l as [|x t IH]; simpl; [constructor|].
  apply insertEntry_sorted; assumption.
Qed.

(** A missing path makes List dereference the nil node. *)
Lemma List_missing_path_nil_deref : forall rootNode dir,
  GetNodeAtPath rootNode (strings_Split dir slash) = Returns None ->
  List None rootNode dir = NilDeref.
Proof.
  intros rootNode dir H. unfold List. rewrite H. reflexivity.
Qed.

(** C2 (code_bug): listing "x" in a snapshot whose root has no child "x":
    the resolver returns nil, and List dereferences it in [!node.IsDir]
    instead of returning ErrorDirNotFound. *)
Theorem List_missing_dir_nil_deref :
  let root := dirNode "root" [dirNode "docs" []] in
  GetNodeAtPath (Some root) (strings_Split "x" slash) = Returns None /\
  List None (Some root) "x" = NilDeref /\
  List None (Some root) "x" <> Returns (inr ErrorDirNotFound).
Proof.
  cbv zeta. split; [reflexivity|]. split.
  - apply List_missing_path_nil_deref. reflexivity.
  - discriminate.
Qed.

(** C4 (counterexample): children "a" and "B" are listed B, a (byte 'B'
    is below byte 'a'), which is not ascending under case folding. *)
Lemma List_order_is_case_sensitive :
  let root := dirNode "root" [fileNode "a"; fileNode "B"] in
  exists es, List None (Some root) "" = Returns (inl es) /\
    map Remote es = ["B"; "a"] /\
    ~ Sorted specNameLe es.
Proof.
  cbv zeta. eexists. split; [reflexivity|]. split; [reflexivity|].
  intros Hs. inversion Hs as [|? ? _ Hhd]; subst.
  inversion Hhd as [|? ? Hle]; subst.
  apply Hle. reflexivity.
Qed.

(** C4 (amended): listing a directory returns its projected children,
    sorted ascending by rclone's DirEntries.Less: byte-wise (case-sensitive)
    order of the entries' remote paths, directories first on equal paths.
    In particular children "b", "A", "c" are listed A, b, c. *)
Theorem List_sorted_bytewise :
  (forall rootNode dir node,
     GetNodeAtPath rootNode (strings_Split dir slash) = Returns (Some node) ->
     IsDir node = true ->
     exists es, List None rootNode dir = Returns (inl es) /\
       Permutation es (map (projectEntry dir) (Children node)) /\
       Sorted entryLe es) /\
  (exists es,
     List None (Some (dirNode "root" [fileNode "b"; dirNode "A" []; fileNode "c"])) ""
       = Returns (inl es) /\
     map Remote es = ["A"; "b"; "c"]).
Proof.
  split.
  - intros rootNode dir node Hget Hdir.
    exists (sortSlice (map (projectEntry dir) (Children node))).
    unfold List. rewrite Hget, Hdir. simpl.
    split; [reflexivity|]. split; [apply sortSlice_perm | apply sortSlice_sorted].
  - eexists. split; reflexivity.
Qed.

(** ** The tree builder *)

Lemma drainErrChan_none : forall msgs,
  snd (drainErrChan msgs) = None <-> Forall (fun m => m = None) msgs.
Proof.
  induction msgs as [|m rest IH]; simpl.
  - split; constructor.
  - destruct m as [e|].
    + split; [discriminate | intros H; inversion H; discriminate].
    + destruct (drainErrChan rest) as [k e] eqn:E. simpl in *.
      rewrite IH. split; [intros H; constructor; auto | intros H; inversion H; auto].
Qed.

(** Under a valid schedule the messages received are those of all
    spawned goroutines. *)
Lemma msgs_none_iff : forall (sched : Sched) id (results : list (Node + Error)) d,
  validSched sched ->
  Forall (fun m => m = None)
    (map (fun i => errOf (nth i results d)) (sched id (seq 0 (length results))))
  <-> Forall (fun res => errOf res = None) results.
Proof.
  intros sched id results d Hv.
  rewrite Forall_map.
  split; intros H; apply Forall_forall; intros x Hx.
  - destruct (In_nth results x d Hx) as [i [Hi Hnth]].
    rewrite Forall_forall in H.
    rewrite <- Hnth. apply H.
    apply (Permutation_in _ (Permutation_sym (Hv id (seq 0 (length results))))).
    apply in_seq. lia.
  - rewrite Forall_forall in H. apply H.
    apply (Permutation_in _ (Hv id _)) in Hx. apply in_seq in Hx.
    apply nth_In. lia.
Qed.

Lemma FillFolderNode_S : forall fuel' r sched folderNode,
  FillFolderNode (S fuel') None r sched folderNode =
  if negb (IsDir folderNode) then inr ErrNotAFolder else
  match foldersOf r (Id folderNode) with
  | inr e => inr e
  | inl folders =>
      let children := (Children folderNode ++ map newFolderNode folders)%list in
      let results := map (FillFolderNode fuel' None r sched) children in
      let msgs := map (fun i => errOf (nth i results (inr ErrFuel)))
                      (sched (Id folderNode) (seq 0 (length children))) in
      match snd (drainErrChan msgs) with
      | Some e => inr e
      | None =>
          match filesOf r (Id folderNode) with
          | inr e => inr e
          | inl files =>
              inl (setChildren folderNode
                     (map (fun '(c, res) => filledChild c res) (combine children results)
                      ++ map newFileNode (filter keepFile files))%list)
          end
      end
  end.
Proof. reflexivity. Qed.

(** The shape of a successful FillFolderNode under a valid schedule. *)
Lemma FillFolderNode_ok_inv : forall fuel r sched folderNode n',
  validSched sched ->
  FillFolderNode fuel None r sched folderNode = inl n' ->
  exists fuel' folders files,
    fuel = S fuel' /\ IsDir folderNode = true /\
    foldersOf r (Id folderNode) = inl folders /\
    filesOf r (Id folderNode) = inl files /\
    Forall (fun c => errOf (FillFolderNode fuel' None r sched c) = None)
      (Children folderNode ++ map newFolderNode folders)%list /\
    n' = setChildren folderNode
           (map (fun '(c, res) => filledChild c res)
              (combine (Children folderNode ++ map newFolderNode folders)%list
                 (map (FillFolderNode fuel' None r sched)
                    (Children folderNode ++ map newFolderNode folders)%list))
            ++ map newFileNode (filter keepFile files))%list.
Proof.
  intros fuel r sched folderNode n' Hv H.
  destruct fuel as [|fuel']; [discriminate|].
  rewrite FillFolderNode_S in H.
  destruct (IsDir folderNode) eqn:Hd; [|discriminate]. simpl in H.
  destruct (foldersOf r (Id folderNode)) as [folders|e] eqn:Hf; [|discriminate].
  cbv zeta in H.
  destruct (snd (drainErrChan _)) as [e|] eqn:Hdr in H; [discriminate|].
  destruct (filesOf r (Id folderNode)) as [files|e] eqn:Hfi; [|discriminate].
  injection H as <-.
  exists fuel', folders, files. repeat split; auto.
  apply drainErrChan_none in Hdr.
  rewrite <- (length_map (FillFolderNode fuel' None r sched)) in Hdr.
  apply (msgs_none_iff sched (Id folderNode) _ _ Hv) in Hdr.
  apply Forall_map in Hdr. exact Hdr.
Qed.

Lemma Id_setChildren : forall n cs, Id (setChildren n cs) = Id n.
Proof. intros [] cs; reflexivity. Qed.
Lemma Name_setChildren : forall n cs, Name (setChildren n cs) = Name n.
Proof. intros [] cs; reflexivity. Qed.
Lemma IsDir_setChildren : forall n cs, IsDir (setChildren n cs) = IsDir n.
Proof. intros [] cs; reflexivity. Qed.
Lemma Children_setChildren : forall n cs, Children (setChildren n cs) = cs.
Proof. intros [] cs; reflexivity. Qed.

Lemma FillFolderNode_ok_fields : forall fuel r sched folderNode n',
  validSched sched ->
  FillFolderNode fuel None r sched folderNode = inl n' ->
  Id n' = Id folderNode /\ Name n' = Name folderNode /\ IsDir n' = true.
Proof.
  intros fuel r sched folderNode n' Hv H.
  destruct (FillFolderNode_ok_inv _ _ _ _ _ Hv H)
    as (fuel' & folders & files & _ & Hd & _ & _ & _ & ->).
  rewrite Id_setChildren, Name_setChildren, IsDir_setChildren. auto.
Qed.

(** The nodes the goroutines leave behind, when all of them succeeded. *)
Lemma filledChildren_forall2 : forall (f : Node -> Node + Error) cs,
  Forall (fun c => errOf (f c) = None) cs ->
  Forall2 (fun c d => f c = inl d) cs
    (map (fun '(c, res) => filledChild c res) (combine cs (map f cs))).
Proof.
  intros f cs H; induction H as [|c cs Hc _ IH]; simpl; constructor; auto.
  destruct (f c); [reflexivity | discriminate].
Qed.

(** A successful build does not depend on the order in which the
    goroutines complete. *)
Lemma FillFolderNode_sched_indep : forall fuel r s1 s2 folderNode n',
  validSched s1 -> validSched s2 ->
  FillFolderNode fuel None r s1 folderNode = inl n' ->
  FillFolderNode fuel None r s2 folderNode = inl n'.
Proof.
  induction fuel as [|fuel IH]; intros r s1 s2 folderNode n' H1 H2 H;
    [discriminate|].
  destruct (FillFolderNode_ok_inv _ _ _ _ _ H1 H)
    as (f' & folders & files & Hf & Hd & Hfo & Hfi & Hall & ->).
  injection Hf as <-.
  set (children := (Children folderNode ++ map newFolderNode folders)%list) in *.
  assert (Hres : map (FillFolderNode fuel None r s2) children =
                 map (FillFolderNode fuel None r s1) children).
  { apply map_ext_in. intros c Hc. rewrite Forall_forall in Hall.
    specialize (Hall c Hc).
    destruct (FillFolderNode fuel None r s1 c) eqn:E; [|discriminate].
    eapply IH; eauto. }
  rewrite FillFolderNode_S, Hd, Hfo. unfold negb. cbv zeta.
  fold children. rewrite Hres.
  replace (length children)
    with (length (map (FillFolderNode fuel None r s1) children)) by apply length_map.
  assert (Hdr : snd (drainErrChan
     (map (fun i => errOf (nth i (map (FillFolderNode fuel None r s1) children)
                                (inr ErrFuel)))
        (s2 (Id folderNode)
           (seq 0 (length (map (FillFolderNode fuel None r s1) children)))))) = None).
  { apply drainErrChan_none. apply msgs_none_iff; [assumption|].
    apply Forall_map. exact Hall. }
  rewrite Hdr, Hfi. reflexivity.
Qed.

Lemma Forall2_map_eq : forall {A B C : Type} (P : A -> B -> Prop) (f : A -> C) (g : B -> C) xs ys,
  (forall x y, P x y -> f x = g y) -> Forall2 P xs ys -> map f xs = map g ys.
Proof.
  intros A B C P f g xs ys Hfg H; induction H; simpl; f_equal; auto.
Qed.

(** C8: after a successful build of a fresh folder node (no children yet,
    as GetCourseFileTree and FillFolderNode create them), its children are
    the subfolders in the order of the folder fetch, each filled by its
    own recursive build, followed by the retained files in the order of the
    file fetch; the result is the same under every completion order of the
    concurrent subtree builds. *)
Theorem FillFolderNode_children_order :
  forall fuel r sched folderNode n',
    validSched sched -> Children folderNode = [] ->
    FillFolderNode fuel None r sched folderNode = inl n' ->
    exists folders files dirs,
      foldersOf r (Id folderNode) = inl folders /\
      filesOf r (Id folderNode) = inl files /\
      Children n' = (dirs ++ map newFileNode (filter keepFile files))%list /\
      map Id dirs = map fd_ID folders /\
      map Name dirs = map fd_Name folders /\
      Forall (fun d => IsDir d = true) dirs /\
      Forall2 (fun folder d =>
        FillFolderNode (pred fuel) None r sched (newFolderNode folder) = inl d)
        folders dirs /\
      (forall sched', validSched sched' ->
         FillFolderNode fuel None r sched' folderNode = inl n').
Proof.
  intros fuel r sched folderNode n' Hv Hc H.
  destruct (FillFolderNode_ok_inv _ _ _ _ _ Hv H)
    as (fuel' & folders & files & -> & Hd & Hfo & Hfi & Hall & Hn').
  rewrite Hc in Hall, Hn'. simpl app in Hall, Hn'.
  pose proof (filledChildren_forall2 _ _ Hall) as H2.
  set (dirs := map (fun '(c, res) => filledChild c res) _) in H2, Hn'.
  assert (H2' : Forall2 (fun folder d =>
            FillFolderNode fuel' None r sched (newFolderNode folder) = inl d)
            folders dirs).
  { clearbody dirs. clear -H2.
    revert dirs H2; induction folders as [|f fs IH]; intros dirs H2;
      inversion H2; subst; constructor; auto. }
  exists folders, files, dirs.
  split; [assumption|]. split; [assumption|].
  split; [rewrite Hn'; apply Children_setChildren|].
  split.
  { symmetry. apply (Forall2_map_eq _ fd_ID Id _ _ (fun f d Hfd =>
      eq_sym (proj1 (FillFolderNode_ok_fields fuel' r sched (newFolderNode f) d
                       Hv Hfd))) H2'). }
  split.
  { symmetry. apply (Forall2_map_eq _ fd_Name Name _ _ (fun f d Hfd =>
      eq_sym (proj1 (proj2 (FillFolderNode_ok_fields fuel' r sched (newFolderNode f) d
                                Hv Hfd)))) H2'). }
  split.
  { clear -H2' Hv. induction H2'; constructor; auto.
    apply (FillFolderNode_ok_fields _ _ _ _ _ Hv H). }
  split; [exact H2'|].
  intros sched' Hv'. apply (FillFolderNode_sched_indep _ _ sched); assumption.
Qed.

(** C5: under every completion order, a successful build of a folder keeps
    exactly the file records that are readable and downloadable: the file
    children are the retained records' nodes in fetch order, every file
    child comes from a readable and downloadable record, and so does every
    object entry of a listing of that folder. *)
Theorem FillFolderNode_excludes_unreadable_files :
  forall fuel r sched folderNode n' files,
    validSched sched ->
    FillFolderNode fuel None r sched folderNode = inl n' ->
    filesOf r (Id folderNode) = inl files ->
    (exists dirs, Children n' = (dirs ++ map newFileNode (filter keepFile files))%list /\
                  Forall (fun d => IsDir d = true) dirs) /\
    (forall c, In c (Children n') -> IsDir c = false ->
       exists file, In file files /\ fi_IsReadable file = true /\
                    fi_IsDownloadable file = true /\ c = newFileNode file) /\
    (forall dir o, In (EObject o) (map (projectEntry dir) (Children n')) ->
       exists file, In file files /\ fi_IsReadable file = true /\
                    fi_IsDownloadable file = true /\ obj_id o = fi_ID file).
Proof.
  intros fuel r sched folderNode n' files Hv H Hfiles.
  destruct (FillFolderNode_ok_inv _ _ _ _ _ Hv H)
    as (fuel' & folders & files' & -> & Hd & Hfo & Hfi & Hall & Hn').
  rewrite Hfiles in Hfi. injection Hfi as <-.
  pose proof (filledChildren_forall2 _ _ Hall) as H2.
  set (dirs := map (fun '(c, res) => filledChild c res) _) in H2, Hn'.
  assert (Hdirs : Forall (fun d => IsDir d = true) dirs).
  { clearbody dirs. clear -H2 Hv. induction H2; constructor; auto.
    apply (FillFolderNode_ok_fields _ _ _ _ _ Hv H). }
  assert (Hfile : forall c, In c (Children n') -> IsDir c = false ->
       exists file, In file files /\ fi_IsReadable file = true /\
                    fi_IsDownloadable file = true /\ c = newFileNode file).
  { intros c Hin Hc. rewrite Hn', Children_setChildren in Hin.
    apply in_app_or in Hin as [Hin | Hin].
    - rewrite Forall_forall in Hdirs. rewrite (Hdirs c Hin) in Hc. discriminate.
    - apply in_map_iff in Hin as (file & <- & Hin).
      apply filter_In in Hin as [Hin Hk]. unfold keepFile in Hk.
      apply andb_true_iff in Hk as [Hr Hdl].
      exists file. auto. }
  split; [|split].
  - exists dirs. split; [rewrite Hn'; apply Children_setChildren | exact Hdirs].
  - exact Hfile.
  - intros dir o Hin. apply in_map_iff in Hin as (c & Hpe & Hin).
    unfold projectEntry in Hpe.
    destruct (IsDir c) eqn:Hc; [discriminate|].
    injection Hpe as <-. simpl.
    destruct (Hfile c Hin Hc) as (file & Hf & Hr & Hdl & ->).
    exists file. auto.
Qed.

(** C1 (code_bug): the two goroutines of root1 send A's error and B's
    success; the receive loop returns after the first message, so B's
    send on the unbuffered channel is never received and its goroutine
    stays blocked: 1 of the 2 spawned tasks is drained. *)
Theorem FillFolderNode_returns_before_draining :
  let children := map newFolderNode [folderA; folderB] in
  let msgs := map (fun i => errOf (nth i (map (FillFolderNode 3 None failRemote fifo) children)
                                       (inr ErrFuel)))
                  (fifo "root1" (seq 0 (length children))) in
  msgs = [Some e500; None] /\
  drainErrChan msgs = (1%nat, Some e500) /\
  blockedSenders msgs = 1%nat /\
  FillFolderNode 4 None failRemote fifo (freshRoot "root1") = inr e500.
Proof. repeat split; reflexivity. Qed.

(** ** Root folder lookup *)

Lemma IndexFunc_find : forall {A : Type} (p : A -> bool) l,
  match IndexFunc p l with None => None | Some i => nth_error l i end = find p l.
Proof.
  intros A p l; induction l as [|x t IH]; simpl; [reflexivity|].
  destruct (p x); [reflexivity|].
  destruct (IndexFunc p t); simpl; assumption.
Qed.

Lemma find_none_Forall : forall {A : Type} (p : A -> bool) l,
  find p l = None <-> Forall (fun x => p x = false) l.
Proof.
  intros A p l; induction l as [|x t IH]; simpl.
  - split; [constructor | reflexivity].
  - destruct (p x) eqn:E.
    + split; [discriminate | intros H; inversion H; congruence].
    + rewrite IH. split; [intros H; constructor; auto | intros H; inversion H; auto].
Qed.

(** C7: given the decoded folder listing of the course, RetrieveRootFolderID
    returns the id of the (first) entry of type "RootFolder", and fails with
    the "no RootFolder" error exactly when no entry has that type. *)
Theorem RetrieveRootFolderID_spec : forall r courseID data,
  courseFoldersOf r courseID = inl data ->
  RetrieveRootFolderID None r courseID =
    match find isRootFolder data with
    | Some e => inl (fd_ID e)
    | None => inr ErrNoRootFolder
    end /\
  (RetrieveRootFolderID None r courseID = inr ErrNoRootFolder <->
     Forall (fun e => isRootFolder e = false) data) /\
  (forall id, RetrieveRootFolderID None r courseID = inl id ->
     exists e, In e data /\ isRootFolder e = true /\ fd_ID e = id).
Proof.
  intros r courseID data Hd.
  assert (Heq : RetrieveRootFolderID None r courseID =
    match find isRootFolder data with
    | Some e => inl (fd_ID e)
    | None => inr ErrNoRootFolder
    end).
  { unfold RetrieveRootFolderID. rewrite Hd, <- IndexFunc_find.
    destruct (IndexFunc isRootFolder data) as [i|]; [|reflexivity].
    destruct (nth_error data i); reflexivity. }
  split; [exact Heq|]. rewrite Heq. split.
  - rewrite <- find_none_Forall.
    destruct (find isRootFolder data); [split; discriminate | tauto].
  - intros id Hid. destruct (find isRootFolder data) as [e|] eqn:E; [|discriminate].
    injection Hid as <-. apply find_some in E as [Hin Hr].
    exists e. auto.
Qed.

Lemma RetrieveRootFolderID_spec_witness :
  courseFoldersOf exRemote "c1" = inl [mkFolderData "other" "StandardFolder" "x" 0;
                                       mkFolderData "root1" "RootFolder" "" 0] /\
  RetrieveRootFolderID None exRemote "c1" = inl "root1".
Proof.
  split; [reflexivity|].
  destruct (RetrieveRootFolderID_spec exRemote "c1" _ eq_refl) as [H _].
  exact H.
Defined.

(** ** NewFs *)

(** C10: with root "a/b" NewFs resolves the parent path "a"; the course
    tree has no folder "a", so NewFs succeeds with a nil root node. *)
Theorem NewFs_stores_nil_root :
  splitPath (filepath_Dir "a/b") = ["a"] /\
  GetCourseFileTree 5 None exRemote fifo "root1" = inl (Some exTree) /\
  GetNodeAtPath (Some exTree) ["a"] = Returns None /\
  NewFs 5 None exRemote fifo "c1" "a/b" = Returns (inl (mkFs "a/b" None)).
Proof. repeat split; vm_compute; reflexivity. Qed.

(** ** Witnesses *)

Lemma List_sorted_bytewise_witness :
  let n := dirNode "root" [fileNode "b"; dirNode "A" []; fileNode "c"] in
  (GetNodeAtPath (Some n) (strings_Split "" slash) = Returns (Some n) /\ IsDir n = true) /\
  exists es, List None (Some n) "" = Returns (inl es) /\
    Permutation es (map (projectEntry "") (Children n)) /\ Sorted entryLe es.
Proof.
  cbv zeta. split; [split; reflexivity|].
  apply (proj1 List_sorted_bytewise); reflexivity.
Defined.

Lemma FillFolderNode_excludes_unreadable_files_witness :
  validSched lifo /\
  FillFolderNode 5 None exRemote lifo (freshRoot "root1") = inl exTree /\
  filesOf exRemote (Id (freshRoot "root1")) =
    inl [mkFileData "f1" "notes.txt" 3 5 "text/plain" true true;
         mkFileData "f2" "secret.txt" 4 9 "text/plain" true false] /\
  map Name (Children exTree) = ["docs"; "notes.txt"] /\
  forall c, In c (Children exTree) -> IsDir c = false ->
    exists file, In file [mkFileData "f1" "notes.txt" 3 5 "text/plain" true true;
                          mkFileData "f2" "secret.txt" 4 9 "text/plain" true false] /\
      fi_IsReadable file = true /\ fi_IsDownloadable file = true /\ c = newFileNode file.
Proof.
  split; [exact lifo_valid|]. split; [vm_compute; reflexivity|].
  split; [reflexivity|]. split; [vm_compute; reflexivity|].
  apply (FillFolderNode_excludes_unreadable_files 5 exRemote lifo (freshRoot "root1"));
    [exact lifo_valid | vm_compute; reflexivity | reflexivity].
Defined.

Lemma FillFolderNode_children_order_witness :
  validSched lifo /\ Children (freshRoot "root1") = [] /\
  FillFolderNode 5 None exRemote lifo (freshRoot "root1") = inl exTree /\
  FillFolderNode 5 None exRemote fifo (freshRoot "root1") = inl exTree.
Proof.
  split; [exact lifo_valid|]. split; [reflexivity|].
  assert (H : FillFolderNode 5 None exRemote lifo (freshRoot "root1") = inl exTree)
    by (vm_compute; reflexivity).
  split; [exact H|].
  destruct (FillFolderNode_children_order 5 exRemote lifo (freshRoot "root1") exTree
              lifo_valid eq_refl H) as (? & ? & ? & _ & _ & _ & _ & _ & _ & _ & Hall).
  apply Hall, fifo_valid.
Defined.

(** * Further properties of the code *)

(** ** GetNodeAtPath *)

Lemma GetNodeAtPath_some_returns : forall n p,
  exists r, GetNodeAtPath (Some n) p = Returns r.
Proof.
  intros n p; revert n; induction p as [|s rest IH]; intros n; simpl.
  - eexists; reflexivity.
  - destruct (String.eqb s "."); [eexists; reflexivity|].
    destruct (String.eqb s ""); [eexists; reflexivity|].
    destruct (findChild (Children n) s) as [c|]; [apply IH | eexists; reflexivity].
Qed.

(** X1: resolving from a non-nil node never dereferences nil: it returns
    a node or nil. *)
Theorem GetNodeAtPath_nonnil_total : forall n p,
  exists r, GetNodeAtPath (Some n) p = Returns r.
Proof. exact GetNodeAtPath_some_returns. Qed.

Lemma isStep_false_dot : forall s, isStep s = true ->
  String.eqb s "." = false /\ String.eqb s "" = false.
Proof.
  unfold isStep; intros s H. apply andb_true_iff in H as [H1 H2].
  apply negb_true_iff in H1, H2. auto.
Qed.

(** X2: resolution composes: when the first part of a path has no "."
    or "" segment, resolving the whole path is resolving the first part,
    then the rest from the node it reached (nil stays nil). *)
Theorem GetNodeAtPath_app : forall n p1 p2,
  forallb isStep p1 = true ->
  GetNodeAtPath (Some n) (p1 ++ p2) =
    match GetNodeAtPath (Some n) p1 with
    | Returns (Some m) => GetNodeAtPath (Some m) p2
    | r => r
    end.
Proof.
  intros n p1; revert n; induction p1 as [|s rest IH]; intros n p2 Hp; simpl.
  - reflexivity.
  - simpl in Hp. apply andb_true_iff in Hp as [Hs Hrest].
    destruct (isStep_false_dot s Hs) as [-> ->].
    destruct (findChild (Children n) s) as [c|]; [apply IH; assumption | reflexivity].
Qed.

(** X3: a non-empty path of look-up segments resolves only to a node
    below the start node whose name is the last segment. *)
Theorem GetNodeAtPath_resolves_below : forall p n m,
  p <> [] -> forallb isStep p = true ->
  GetNodeAtPath (Some n) p = Returns (Some m) ->
  subnode m n /\ Name m = last p "".
Proof.
  induction p as [|s rest IH]; intros n m Hne Hp H; [contradiction|].
  simpl in Hp. apply andb_true_iff in Hp as [Hs Hrest].
  simpl in H. destruct (isStep_false_dot s Hs) as [E1 E2]. rewrite E1, E2 in H.
  destruct (findChild (Children n) s) as [c|] eqn:Hc; [|discriminate].
  unfold findChild in Hc. apply find_some in Hc as [Hin Hname].
  apply String.eqb_eq in Hname.
  destruct rest as [|s' rest'].
  - simpl in H. injection H as Hcm. subst c. split.
    + apply (subnode_child _ m); [assumption | constructor].
    + simpl. assumption.
  - destruct (IH c m ltac:(discriminate) Hrest H) as [Hsub Hn]. split.
    + apply (subnode_child _ c); assumption.
    + rewrite Hn. reflexivity.
Qed.

Lemma GetNodeAtPath_resolves_below_witness :
  let docs := dirNode "docs" [fileNode "a.pdf"] in
  let n := dirNode "root" [docs] in
  ["docs"; "a.pdf"] <> [] /\ forallb isStep ["docs"; "a.pdf"] = true /\
  GetNodeAtPath (Some n) ["docs"; "a.pdf"] = Returns (Some (fileNode "a.pdf")) /\
  subnode (fileNode "a.pdf") n /\ Name (fileNode "a.pdf") = "a.pdf".
Proof.
  cbv zeta.
  assert (H : GetNodeAtPath (Some (dirNode "root" [dirNode "docs" [fileNode "a.pdf"]]))
                ["docs"; "a.pdf"] = Returns (Some (fileNode "a.pdf"))) by reflexivity.
  split; [discriminate|]. split; [reflexivity|]. split; [exact H|].
  apply (GetNodeAtPath_resolves_below ["docs"; "a.pdf"] _ _ ltac:(discriminate)
           eq_refl H).
Defined.

(** ** List *)


(** X5: a directory path that is "", "." or starts with "/" or "./" lists
    the root node itself: the first segment of the split stops the
    resolver. *)
Theorem List_root_paths : forall n dir,
  (dir = "" \/ dir = "." \/ startsWithSlash dir = true \/
   (exists rest, dir = String "." (String "/" rest))) ->
  List None (Some n) dir =
    if IsDir n then Returns (inl (sortSlice (map (projectEntry dir) (Children n))))
    else Returns (inr ErrorDirNotFound).
Proof.
  intros n dir Hd. unfold List.
  assert (H : GetNodeAtPath (Some n) (strings_Split dir slash) = Returns (Some n)).
  { destruct Hd as [-> | [-> | [Hs | [rest ->]]]]; try reflexivity.
    destruct dir as [|c rest]; [discriminate|]. simpl in Hs.
    unfold strings_Split. simpl. rewrite Hs. reflexivity. }
  rewrite H. destruct (IsDir n); reflexivity.
Qed.

Lemma List_root_paths_witness :
  let n := dirNode "root" [dirNode "docs" []] in
  (("/docs" = "" \/ "/docs" = "." \/ startsWithSlash "/docs" = true \/
   (exists rest, "/docs" = String "." (String "/" rest))) /\
  List None (Some n) "/docs" =
    Returns (inl (sortSlice (map (projectEntry "/docs") (Children n))))).
Proof.
  cbv zeta. split; [right; right; left; reflexivity|].
  apply (List_root_paths (dirNode "root" [dirNode "docs" []]) "/docs").
  right; right; left; reflexivity.
Defined.


(** ** Splitting and cleaning paths *)

Lemma noSlash_cons : forall c w,
  noSlash (String c w) = negb (Ascii.eqb c slash) && noSlash w.
Proof. reflexivity. Qed.

Lemma splitOn_noSlash : forall w, noSlash w = true -> splitOn slash w = [w].
Proof.
  induction w as [|c w IH]; intros H; [reflexivity|].
  rewrite noSlash_cons in H. apply andb_true_iff in H as [Hc Hw].
  apply negb_true_iff in Hc. simpl. rewrite Hc, (IH Hw). reflexivity.
Qed.

Lemma splitOn_app_slash : forall a rest, noSlash a = true ->
  splitOn slash (a ++ String slash rest) = a :: splitOn slash rest.
Proof.
  induction a as [|c a IH]; intros rest H; [reflexivity|].
  rewrite noSlash_cons in H. apply andb_true_iff in H as [Hc Ha].
  apply negb_true_iff in Hc. simpl. rewrite Hc, (IH rest Ha). reflexivity.
Qed.

(** strings.Split undoes a join of segments that hold no separator. *)
Lemma splitOn_joinWith : forall ws, ws <> [] -> forallb noSlash ws = true ->
  splitOn slash (joinWith "/" ws) = ws.
Proof.
  induction ws as [|w ws IH]; intros Hne H; [contradiction|].
  simpl in H. apply andb_true_iff in H as [Hw Hws].
  destruct ws as [|w2 ws'].
  - apply splitOn_noSlash. assumption.
  - change (joinWith "/" (w :: w2 :: ws')) with (w ++ String slash (joinWith "/" (w2 :: ws'))).
    rewrite splitOn_app_slash by assumption.
    rewrite IH by (discriminate || assumption). reflexivity.
Qed.

Lemma splitOn_segments_noSlash : forall s, forallb noSlash (splitOn slash s) = true.
Proof.
  induction s as [|c s IH]; [reflexivity|]. simpl.
  destruct (Ascii.eqb c slash) eqn:Hc; [exact IH|].
  destruct (splitOn slash s) as [|w ws];
    simpl in IH |- *; rewrite noSlash_cons, Hc; [reflexivity | exact IH].
Qed.

Lemma cleanElems_cleanSeg : forall rooted elems out,
  forallb cleanSeg out = true -> forallb noSlash elems = true ->
  forallb cleanSeg (cleanElems rooted out elems) = true.
Proof.
  intros rooted; induction elems as [|e rest IH]; intros out Hout Hel; [exact Hout|].
  simpl in Hel. apply andb_true_iff in Hel as [He Hrest]. simpl.
  destruct (String.eqb e "" || String.eqb e ".") eqn:E; [apply IH; assumption|].
  apply orb_false_iff in E as [E1 E2].
  assert (Hseg : cleanSeg e = true).
  { unfold cleanSeg, isStep. rewrite E1, E2, He. reflexivity. }
  destruct (String.eqb e "..").
  - destruct out as [|o out'].
    + destruct rooted; apply IH; simpl; rewrite ?Hseg; auto.
    + simpl in Hout. apply andb_true_iff in Hout as [Ho Hout'].
      destruct (String.eqb o "..").
      * apply IH; [simpl; rewrite Hseg, Ho, Hout'; reflexivity | assumption].
      * apply IH; assumption.
  - apply IH; [simpl; rewrite Hseg, Hout; reflexivity | assumption].
Qed.

Lemma forallb_rev_iff : forall {A : Type} (f : A -> bool) l,
  forallb f (rev l) = forallb f l.
Proof.
  intros A f l. apply Bool.eq_true_iff_eq. rewrite !forallb_forall.
  split; intros H x Hx; apply H.
  - apply (proj1 (in_rev l x)); assumption.
  - apply (proj2 (in_rev l x)); assumption.
Qed.

Lemma cleanSeg_noSlash : forall ws, forallb cleanSeg ws = true -> forallb noSlash ws = true.
Proof.
  induction ws as [|w ws IH]; simpl; [reflexivity|].
  unfold cleanSeg. destruct (isStep w), (noSlash w); simpl; auto; discriminate.
Qed.

Lemma joinWith_nonempty : forall ws, ws <> [] -> forallb cleanSeg ws = true ->
  joinWith "/" ws <> "".
Proof.
  intros [|w ws] Hne H; [contradiction|].
  simpl in H. apply andb_true_iff in H as [Hw _].
  unfold cleanSeg, isStep in Hw.
  destruct w as [|c w]; [discriminate|].
  destruct ws; simpl; discriminate.
Qed.

Lemma splitPath_segments : forall p,
  if startsWithSlash p then
    splitPath p = [] \/
    exists ws, ws <> [] /\ forallb cleanSeg ws = true /\ splitPath p = "" :: ws
  else
    splitPath p = ["."] \/
    (splitPath p <> [] /\ forallb cleanSeg (splitPath p) = true).
Proof.
  intros [|c rest]; [left; reflexivity|].
  unfold splitPath, path_Clean. simpl startsWithSlash.
  set (ws := rev (cleanElems (Ascii.eqb c slash) [] (splitOn slash (String c rest)))).
  assert (Hws : forallb cleanSeg ws = true).
  { unfold ws. rewrite forallb_rev_iff. apply cleanElems_cleanSeg; [reflexivity|].
    apply splitOn_segments_noSlash. }
  cbv zeta. fold ws.
  destruct ws as [|w ws'] eqn:Ew.
  - destruct (Ascii.eqb c slash); [left; reflexivity | left; reflexivity].
  - rewrite <- Ew in Hws |- *.
    assert (Hne : ws <> []) by (rewrite Ew; discriminate).
    pose proof (joinWith_nonempty ws Hne Hws) as Hb.
    pose proof (splitOn_joinWith ws Hne (cleanSeg_noSlash ws Hws)) as Hsplit.
    destruct (Ascii.eqb c slash).
    + right. exists ws. split; [exact Hne|]. split; [exact Hws|].
      destruct (joinWith "/" ws) as [|b body] eqn:Eb; [contradiction|].
      simpl. unfold strings_Split. f_equal. rewrite <- Hsplit. reflexivity.
    + destruct (String.eqb (joinWith "/" ws) "") eqn:Ee.
      { apply String.eqb_eq in Ee. contradiction. }
      right. unfold strings_Split.
      destruct (String.eqb (joinWith "/" ws) "/") eqn:Es.
      * apply String.eqb_eq in Es. rewrite Es in Hsplit.
        simpl in Hsplit. rewrite <- Hsplit in Hws. discriminate.
      * rewrite Hsplit. split; assumption.
Qed.

(** X6: splitPath cuts a path into segments that hold no "/" and are
    neither "" nor "."; a relative path gives ["."] or such segments, an
    absolute path gives [] (for "/") or "" followed by such segments. *)
Theorem splitPath_shape : forall p,
  if startsWithSlash p then
    splitPath p = [] \/
    exists ws, ws <> [] /\ forallb cleanSeg ws = true /\ splitPath p = "" :: ws
  else
    splitPath p = ["."] \/
    (splitPath p <> [] /\ forallb cleanSeg (splitPath p) = true).
Proof. exact splitPath_segments. Qed.

(** ** NewFs *)















(** ** The built tree *)

Lemma Size_setChildren : forall n cs, Size (setChildren n cs) = Size n.
Proof. intros [] cs; reflexivity. Qed.

Lemma Forall2_in_r : forall {A B : Type} (P : A -> B -> Prop) xs ys y,
  Forall2 P xs ys -> In y ys -> exists x, In x xs /\ P x y.
Proof.
  intros A B P xs ys y H; induction H as [|x y' xs ys Hxy _ IH]; intros Hin;
    [destruct Hin|].
  destruct Hin as [<- | Hin]; [exists x; split; [left|]; auto|].
  destruct (IH Hin) as (x' & Hx' & Hp). exists x'. split; [right|]; auto.
Qed.

(** A fresh folder node, filled: its subfolder children come from
    recursive builds, its file children from the retained records. *)
Lemma FillFolderNode_fresh_inv : forall fuel r sched folderNode n',
  validSched sched -> Children folderNode = [] ->
  FillFolderNode fuel None r sched folderNode = inl n' ->
  exists fuel' folders files dirs,
    fuel = S fuel' /\ Size n' = Size folderNode /\
    foldersOf r (Id folderNode) = inl folders /\
    Children n' = (dirs ++ map newFileNode (filter keepFile files))%list /\
    Forall2 (fun folder d =>
      FillFolderNode fuel' None r sched (newFolderNode folder) = inl d) folders dirs.
Proof.
  intros fuel r sched folderNode n' Hv Hc H.
  destruct (FillFolderNode_ok_inv _ _ _ _ _ Hv H)
    as (fuel' & folders & files & -> & Hd & Hfo & Hfi & Hall & Hn').
  rewrite Hc in Hall, Hn'. simpl app in Hall, Hn'.
  pose proof (filledChildren_forall2 _ _ Hall) as H2.
  set (dirs := map (fun '(c, res) => filledChild c res) _) in H2, Hn'.
  exists fuel', folders, files, dirs.
  split; [reflexivity|]. split; [rewrite Hn'; apply Size_setChildren|].
  split; [exact Hfo|]. split; [rewrite Hn'; apply Children_setChildren|].
  clearbody dirs. clear -H2.
  revert dirs H2; induction folders as [|f fs IH]; intros dirs H2;
    inversion H2; subst; constructor; auto.
Qed.

Lemma subnode_leaf : forall m c, Children c = [] -> subnode m c -> m = c.
Proof.
  intros m c Hc H. inversion H as [|? c' ? Hin _]; subst; [reflexivity|].
  rewrite Hc in Hin. destruct Hin.
Qed.

(** X10: in a tree built from a fresh folder node, every node below the
    root is either a file without children or a folder whose size is the
    sentinel -1. *)
Theorem FillFolderNode_tree_shape : forall fuel r sched folderNode n',
  validSched sched -> Children folderNode = [] ->
  FillFolderNode fuel None r sched folderNode = inl n' ->
  forall c m, In c (Children n') -> subnode m c ->
    if IsDir m then Size m = (-1)%Z else Children m = [].
Proof.
  induction fuel as [|fuel IH];
    intros r sched folderNode n' Hv Hc H c m Hin Hsub; [discriminate|].
  destruct (FillFolderNode_fresh_inv _ _ _ _ _ Hv Hc H)
    as (fuel' & folders & files & dirs & Hf & _ & _ & Hch & H2).
  injection Hf as <-.
  rewrite Hch in Hin. apply in_app_or in Hin as [Hin | Hin].
  - destruct (Forall2_in_r _ _ _ _ H2 Hin) as (folder & _ & Hfill).
    inversion Hsub as [? | m' c' ? Hin' Hsub']; subst.
    + destruct (FillFolderNode_ok_fields _ _ _ _ _ Hv Hfill) as (_ & _ & ->).
      destruct (FillFolderNode_fresh_inv _ _ _ (newFolderNode folder) _ Hv eq_refl Hfill)
        as (? & ? & ? & ? & _ & Hs & _).
      rewrite Hs. reflexivity.
    + apply (IH r sched (newFolderNode folder) c Hv eq_refl Hfill c'); assumption.
  - apply in_map_iff in Hin as (file & <- & _).
    rewrite (subnode_leaf _ (newFileNode file) eq_refl Hsub). reflexivity.
Qed.

Lemma FillFolderNode_tree_shape_witness :
  validSched lifo /\ Children (freshRoot "root1") = [] /\
  FillFolderNode 5 None exRemote lifo (freshRoot "root1") = inl exTree /\
  forall c m, In c (Children exTree) -> subnode m c ->
    if IsDir m then Size m = (-1)%Z else Children m = [].
Proof.
  assert (H : FillFolderNode 5 None exRemote lifo (freshRoot "root1") = inl exTree)
    by (vm_compute; reflexivity).
  split; [exact lifo_valid|]. split; [reflexivity|]. split; [exact H|].
  apply (FillFolderNode_tree_shape 5 exRemote lifo (freshRoot "root1") exTree
           lifo_valid eq_refl H).
Defined.

Lemma drainErrChan_some_in : forall msgs e,
  snd (drainErrChan msgs) = Some e -> In (Some e) msgs.
Proof.
  induction msgs as [|m rest IH]; intros e H; [discriminate|].
  destruct m as [e'|]; simpl in H.
  - injection H as ->. left; reflexivity.
  - right. apply IH.
    destruct (drainErrChan rest) as [k o]. exact H.
Qed.

(** X11: under every completion order, when one subtree build of a folder
    fails, the folder build fails too (no partial tree), and the error it
    returns is the error of one of its failed subtree builds. *)
Theorem FillFolderNode_subtree_failure : forall fuel' r sched folderNode folders c e0,
  validSched sched -> IsDir folderNode = true ->
  foldersOf r (Id folderNode) = inl folders ->
  In c (Children folderNode ++ map newFolderNode folders)%list ->
  FillFolderNode fuel' None r sched c = inr e0 ->
  exists e, FillFolderNode (S fuel') None r sched folderNode = inr e /\
    exists c', In c' (Children folderNode ++ map newFolderNode folders)%list /\
               FillFolderNode fuel' None r sched c' = inr e.
Proof.
  intros fuel' r sched folderNode folders c e0 Hv Hd Hfo Hin Hc.
  rewrite FillFolderNode_S, Hd, Hfo. unfold negb. cbv zeta.
  set (children := (Children folderNode ++ map newFolderNode folders)%list) in *.
  set (results := map (FillFolderNode fuel' None r sched) children).
  replace (length children) with (length results) by apply length_map.
  destruct (snd (drainErrChan _)) as [e|] eqn:Hdr.
  - exists e. split; [reflexivity|].
    apply drainErrChan_some_in, in_map_iff in Hdr as (i & Hi & Hsched).
    apply (Permutation_in _ (Hv _ _)), in_seq in Hsched.
    assert (Hnth : In (nth i results (inr ErrFuel)) results) by (apply nth_In; lia).
    unfold results in Hnth. apply in_map_iff in Hnth as (c' & Hc' & Hin').
    exists c'. split; [exact Hin'|]. rewrite Hc'.
    destruct (nth i _ _); [discriminate | injection Hi as ->; reflexivity].
  - exfalso. apply drainErrChan_none, msgs_none_iff in Hdr; [|exact Hv].
    rewrite Forall_forall in Hdr.
    specialize (Hdr (FillFolderNode fuel' None r sched c) (in_map _ _ _ Hin)).
    rewrite Hc in Hdr. discriminate.
Qed.

Lemma FillFolderNode_subtree_failure_witness :
  validSched lifo /\ IsDir (freshRoot "root1") = true /\
  foldersOf failRemote (Id (freshRoot "root1")) = inl [folderA; folderB] /\
  In (newFolderNode folderA) (Children (freshRoot "root1") ++ map newFolderNode [folderA; folderB])%list /\
  FillFolderNode 3 None failRemote lifo (newFolderNode folderA) = inr e500 /\
  exists e, FillFolderNode 4 None failRemote lifo (freshRoot "root1") = inr e /\
    exists c', In c' (Children (freshRoot "root1") ++ map newFolderNode [folderA; folderB])%list /\
               FillFolderNode 3 None failRemote lifo c' = inr e.
Proof.
  split; [exact lifo_valid|]. split; [reflexivity|]. split; [reflexivity|].
  split; [simpl; left; reflexivity|]. split; [reflexivity|].
  apply (FillFolderNode_subtree_failure 3 failRemote lifo (freshRoot "root1")
           [folderA; folderB] (newFolderNode folderA) e500 lifo_valid eq_refl eq_refl);
    [simpl; left; reflexivity | reflexivity].
Defined.

(** X12: GetCourseFileTree's root node is a directory with the given root
    folder id, an empty name and size 0 (not the -1 of the folders below). *)
Theorem GetCourseFileTree_root : forall fuel r sched rootFolderID t,
  validSched sched ->
  GetCourseFileTree fuel None r sched rootFolderID = inl (Some t) ->
  Id t = rootFolderID /\ IsDir t = true /\ Name t = "" /\ Size t = 0%Z.
Proof.
  intros fuel r sched rootFolderID t Hv H. unfold GetCourseFileTree in H.
  destruct (FillFolderNode fuel None r sched (mkNode [] "" rootFolderID true 0 0 ""))
    as [n|e] eqn:E; [|discriminate].
  injection H as <-.
  destruct (FillFolderNode_fresh_inv _ _ _ (mkNode [] "" rootFolderID true 0 0 "") _
              Hv eq_refl E) as (? & ? & ? & ? & _ & Hs & _).
  destruct (FillFolderNode_ok_fields _ _ _ _ _ Hv E) as (Hi & Hn & Hd).
  auto.
Qed.

Lemma GetCourseFileTree_root_witness :
  validSched lifo /\
  GetCourseFileTree 5 None exRemote lifo "root1" = inl (Some exTree) /\
  Id exTree = "root1" /\ Size exTree = 0%Z.
Proof.
  assert (H : GetCourseFileTree 5 None exRemote lifo "root1" = inl (Some exTree))
    by (vm_compute; reflexivity).
  split; [exact lifo_valid|]. split; [exact H|].
  destruct (GetCourseFileTree_root _ _ _ _ _ lifo_valid H) as (Hi & _ & _ & Hs).
  auto.
Defined.

(** ** Object.Open *)




Lemma GetNodeAtPath_app_witness :
  let docs := dirNode "docs" [fileNode "a.pdf"] in
  let n := dirNode "root" [docs] in
  forallb isStep ["docs"] = true /\
  GetNodeAtPath (Some n) (["docs"] ++ ["a.pdf"]) = GetNodeAtPath (Some docs) ["a.pdf"].
Proof.
  cbv zeta. split; [reflexivity|].
  exact (GetNodeAtPath_app (dirNode "root" [dirNode "docs" [fileNode "a.pdf"]])
           ["docs"] ["a.pdf"] eq_refl).
Defined.
